(** * sale-radar: the proximity filter and the sale crawler

    A shallow embedding of the three programs of the repository:

    - the map front-end that filters the stores of [stores.geojson] around
      the viewer ([src/unnamed/part_000]),
    - the map front-end that renders every store ([src/app.js]),
    - the crawler [fetchSales.mjs] that builds [stores.geojson], in its
      multi-point form ([src/unnamed/part_001]) and in its single-centre form
      (third document of [src/app.js]).

    JavaScript numbers are idealised as real numbers: [Math.sin], [Math.cos],
    [Math.asin] and [Math.sqrt] are the real functions, and rounding,
    overflow, infinities and NaN are not modelled.  The properties stated of
    distances and boxes are therefore those that rounding leaves alone:
    order, membership, symmetry, and comparisons with a margin.  No exact
    value of a distance is stated, positivity is stated only for differences
    that do not underflow, and boxes are taken off the poles, where the
    model would divide by an exact zero and the code by about 6e-17.
    Network calls and the file write are recorded as events of a trace; what
    the outside world answers is an oracle that may depend on everything
    that happened before.  The console output of the crawlers is not
    modelled. *)

From Stdlib Require Import Reals Lra Ascii.
From stdpp Require Import base option list strings.

Open Scope R_scope.

#[local] Set Warnings "-register-all".

(** ** JavaScript values *)

Module JS.

(** A JavaScript number. *)
Abbreviation number := Rdefinitions.R.

#[global] Instance number_eq_dec : EqDecision number := Req_dec_T.
#[global] Instance number_lt_dec (x y : number) : Decision (x < y) := Rlt_dec x y.
#[global] Instance number_gt_dec (x y : number) : Decision (x > y) := Rgt_dec x y.
#[global] Instance number_le_dec (x y : number) : Decision (x <= y) := Rle_dec x y.

(** What [JSON.parse] returns.  An object is the list of its own
    properties. *)
Inductive json : Type :=
| JNull
| JBool (b : bool)
| JNum (n : number)
| JStr (s : string)
| JArr (items : list json)
| JObj (props : list (string * json)).

(** What a [throw] carries. *)
Inductive error : Type :=
| Error (message : string)
| TypeError
| SyntaxError.

(** The outcome of evaluating an expression or a block. *)
Inductive completion (A : Type) : Type :=
| Normal (a : A)
| Throw (e : error).
Arguments Normal {A} a.
Arguments Throw {A} e.

(** [ToBoolean] on strings: only the empty string is falsy. *)
Definition truthy_string (s : string) : bool :=
  match s with EmptyString => false | String _ _ => true end.

(** [ToBoolean] on a property that may be missing ([undefined]). *)
Definition truthy_opt_string (s : option string) : bool :=
  match s with Some s => truthy_string s | None => false end.

(** [ToBoolean] on parsed JSON. *)
Definition truthy (v : json) : bool :=
  match v with
  | JNull => false
  | JBool b => b
  | JNum n => bool_decide (n <> 0)
  | JStr s => truthy_string s
  | JArr _ | JObj _ => true
  end.

(** [ToBoolean] on the result of a property read; [None] is [undefined]. *)
Definition truthy_opt (v : option json) : bool :=
  match v with Some v => truthy v | None => false end.

Fixpoint assoc (k : string) (props : list (string * json)) : option json :=
  match props with
  | [] => None
  | (k', v) :: rest => if decide (k' = k) then Some v else assoc k rest
  end.

(** [v.k] for a name [k] that no primitive wrapper or array defines
    ([sale], [headline], [discount]): a [TypeError] on [null], [undefined]
    on the other non-objects. *)
Definition get (v : json) (k : string) : completion (option json) :=
  match v with
  | JNull => Throw TypeError
  | JObj props => Normal (assoc k props)
  | _ => Normal None
  end.

(** [v || d]. *)
Definition or_else (v : option json) (d : json) : json :=
  match v with
  | Some x => if truthy x then x else d
  | None => d
  end.

(** [s || d] on a string that may be missing. *)
Definition or_string (s : option string) (d : string) : string :=
  match s with
  | Some x => if truthy_string x then x else d
  | None => d
  end.

(** A [Map]: its entries in insertion order, keys pairwise different. *)
Abbreviation Map K V := (list (K * V)).

Section Map.
Context {K V : Type} `{EqDecision K}.

Definition Map_new : Map K V := [].

Fixpoint Map_get (k : K) (m : Map K V) : option V :=
  match m with
  | [] => None
  | (k', v) :: rest => if decide (k' = k) then Some v else Map_get k rest
  end.

Definition Map_has (k : K) (m : Map K V) : bool :=
  match Map_get k m with Some _ => true | None => false end.

(** [set] keeps the position of a key that is already present and
    appends a new one. *)
Fixpoint Map_set (k : K) (v : V) (m : Map K V) : Map K V :=
  match m with
  | [] => [(k, v)]
  | (k', v') :: rest =>
      if decide (k' = k) then (k', v) :: rest else (k', v') :: Map_set k v rest
  end.

Definition Map_keys (m : Map K V) : list K := map fst m.
Definition Map_values (m : Map K V) : list V := map snd m.
Definition Map_size (m : Map K V) : nat := length m.
End Map.

End JS.
Import JS.

(** ** The data file *)

Module GeoJSON.

(** [properties] of a feature as the crawler writes them. *)
Record properties : Type := {
  name : string;
  website : string;
  headline : json;
  discount : json
}.

(** [geometry.coordinates = [longitude, latitude]]. *)
Record geometry : Type := {
  coordinates : number * number
}.

Record feature : Type := {
  feature_properties : properties;
  feature_geometry : geometry
}.

Record featureCollection : Type := {
  features : list feature
}.

End GeoJSON.
Import GeoJSON.

(** ** The helpers shared by both front-ends *)

Module Geo.

(** Earth radius (m). *)
Definition R : number := 6371e3.

Definition toRad (d : number) : number := d * PI / 180.

Record box : Type := {
  latMin : number;
  latMax : number;
  lonMin : number;
  lonMax : number
}.

(** [boundingBox(lat, lon, r = 500)]; [None] is an argument left out. *)
Definition boundingBox (lat lon : number) (r : option number) : box :=
  let r := default 500 r in
  let dLat := (r / R) * 180 / PI in
  let dLon := dLat / cos (toRad lat) in
  {| latMin := lat - dLat; latMax := lat + dLat;
     lonMin := lon - dLon; lonMax := lon + dLon |}.

Definition haversine (lat1 lon1 lat2 lon2 : number) : number :=
  let dLat := toRad (lat2 - lat1) in
  let dLon := toRad (lon2 - lon1) in
  let a := sin (dLat / 2) ^ 2 +
           cos (toRad lat1) * cos (toRad lat2) * sin (dLon / 2) ^ 2 in
  2 * R * asin (sqrt a).

End Geo.
Import Geo.

(** ** The front-end that filters ([src/unnamed/part_000]) *)

Module Filtering.

(** The arrow function given to [filter]: [f] is kept when it holds. *)
Definition keep (b : box) (lat lon : number) (f : feature) : Prop :=
  let lng := (coordinates (feature_geometry f)).1 in
  let lt := (coordinates (feature_geometry f)).2 in
  lt > latMin b /\ lt < latMax b /\ lng > lonMin b /\ lng < lonMax b /\
  haversine lat lon lt lng <= 10000.

#[global] Instance keep_dec b lat lon f : Decision (keep b lat lon f).
Proof. unfold keep; cbv zeta; apply _. Defined.

(** The features that get a card and a marker. *)
Definition hits (lat lon : number) (geojson : featureCollection) : list feature :=
  let b := boundingBox lat lon None in
  filter (keep b lat lon) (features geojson).

End Filtering.

(** ** The front-end that renders everything ([src/app.js]) *)

Module Unfiltered.

(** The box is still computed, and not used. *)
Definition hits (lat lon : number) (geojson : featureCollection) : list feature :=
  let b := boundingBox lat lon None in
  features geojson.

End Unfiltered.

(** ** What the crawlers share: places, the network, effects *)

Module Crawl.

(** A centre of a Nearby Search. *)
Record center : Type := {
  lat : number;
  lng : number
}.

Record latLng : Type := {
  latitude : number;
  longitude : number
}.

Record localizedText : Type := {
  text : option string
}.

(** A place as Google returns it under the field mask; [None] is a field
    that is missing. *)
Record place : Type := {
  id : option string;
  location : option latLng;
  displayName : option localizedText;
  websiteUri : option string
}.

(** The JSON body of a Nearby Search request. *)
Record searchBody : Type := {
  includedTypes : list string;
  maxResultCount : nat;
  circle_center : center;
  circle_radius : number
}.

(** The body of a Nearby Search response. *)
Record searchResult : Type := {
  places : option (list place)
}.

(** What [fetch] resolves to. *)
Record response : Type := {
  ok : bool;
  res_text : string;
  res_json : completion searchResult
}.

(** What [client.responses.create] resolves to. *)
Record modelResponse : Type := {
  output_text : option string
}.

(** The calls that leave the process.  The prompt of a [ResponsesCreate]
    is a fixed text around the URL, so the event carries the URL. *)
Inductive event : Type :=
| Fetch (body : searchBody)
| ResponsesCreate (url : string)
| WriteFile (path : string) (data : featureCollection).

Definition trace : Type := list event.

(** The outside world: each answer may depend on all earlier calls.  A
    [Throw] is a rejected promise. *)
Record network : Type := {
  fetch : trace -> searchBody -> completion response;
  responses_create : trace -> string -> completion modelResponse;
  fs_writeFile : trace -> string -> featureCollection -> completion unit
}.

(** Sequential code with awaited calls and exceptions: the trace so far
    goes in, the longer trace and the completion come out. *)
Definition M (A : Type) : Type := trace -> trace * completion A.

Definition ret {A} (a : A) : M A := fun t => (t, Normal a).

Definition lift {A} (c : completion A) : M A := fun t => (t, c).

Definition bind {A B} (m : M A) (k : A -> M B) : M B :=
  fun t =>
    match m t with
    | (t', Normal a) => k a t'
    | (t', Throw e) => (t', Throw e)
    end.

Notation "x <- m ;; k" := (bind m (fun x => k))
  (at level 100, m at next level, right associativity).

(** [try { m } catch (e) { h e }]. *)
Definition try_catch {A} (m : M A) (h : error -> M A) : M A :=
  fun t =>
    match m t with
    | (t', Normal a) => (t', Normal a)
    | (t', Throw e) => h e t'
    end.

(** [for (const x of l) body], the loop variables threaded as [s]; a
    [continue] is a body that returns [s] unchanged. *)
Fixpoint for_of {A S} (l : list A) (body : S -> A -> M S) (s : S) : M S :=
  match l with
  | [] => ret s
  | x :: rest => s' <- body s x ;; for_of rest body s'
  end.

Definition await_fetch (net : network) (body : searchBody) : M response :=
  fun t => (t ++ [Fetch body], fetch net t body).

Definition await_responses_create (net : network) (url : string) : M modelResponse :=
  fun t => (t ++ [ResponsesCreate url], responses_create net t url).

Definition await_writeFile (net : network) (path : string)
    (data : featureCollection) : M unit :=
  fun t => (t ++ [WriteFile path data], fs_writeFile net t path data).

(** The answer that stands for "no sale". *)
Definition no_sale : json := JObj [("sale"%string, JBool false)].

(** The body of the loop over the stores, the same in both crawlers; it is
    given the crawler's [analyzeSite]. *)
Definition scan (analyzeSite : string -> M json)
    (features : list feature) (p : place) : M (list feature) :=
  match websiteUri p with
  | None => ret features
  | Some url =>
      if negb (truthy_string url) then ret features else
      let name := or_string (displayName p ≫= text) "(unnamed)" in
      try_catch
        (info <- analyzeSite url ;;
         sale <- lift (get info "sale") ;;
         if truthy_opt sale then
           headline <- lift (get info "headline") ;;
           discount <- lift (get info "discount") ;;
           loc <- lift (match location p with
                        | Some l => Normal l
                        | None => Throw TypeError
                        end) ;;
           ret (features ++ [
             {| feature_properties :=
                  {| name := name;
                     website := url;
                     headline := or_else headline (JStr "Sale");
                     discount := or_else discount JNull |};
                feature_geometry :=
                  {| coordinates := (longitude loc, latitude loc) |} |} ])
         else ret features)
        (fun e => ret features)
  end.

(** [process.env]. *)
Record process_env : Type := {
  GOOGLE_API_KEY : option string;
  OPENAI_API_KEY : option string
}.

Definition keys_missing (env : process_env) : bool :=
  negb (truthy_opt_string (GOOGLE_API_KEY env)) ||
  negb (truthy_opt_string (OPENAI_API_KEY env)).

End Crawl.
Import Crawl.

(** ** The multi-point crawler ([src/unnamed/part_001]) *)

Module FetchSales.

Definition INCLUDED_TYPES : list string := [
  "bicycle_store"; "book_store"; "cell_phone_store";
  "clothing_store"; "department_store"; "discount_store"; "electronics_store";
  "furniture_store"; "gift_shop"; "hardware_store"; "home_goods_store";
  "home_improvement_store"; "jewelry_store"; "shoe_store"; "shopping_mall";
  "sporting_goods_store"
]%string.

Definition LOCATIONS : list center := [
  {| lat := 60.169168; lng := 24.930956 |};
  {| lat := 60.168984; lng := 24.938293 |};
  {| lat := 60.169759; lng := 24.944180 |};
  {| lat := 60.167177; lng := 24.945747 |};
  {| lat := 60.162641; lng := 24.939496 |};
  {| lat := 60.156900; lng := 24.919279 |};
  {| lat := 60.160070; lng := 24.880104 |};
  {| lat := 60.187699; lng := 24.979896 |};
  {| lat := 60.198076; lng := 24.930052 |};
  {| lat := 60.181829; lng := 24.950918 |}
].

Definition RADIUS : number := 300.
Definition MAX_RESULTS : nat := 20.

Section Builtins.

(** [String.prototype.trim] and [JSON.parse] of the runtime. *)
Variable trim : string -> string.
Variable JSON_parse : string -> completion json.

Definition queryPlaces (net : network) (loc : center) : M (list place) :=
  let body :=
    {| includedTypes := INCLUDED_TYPES;
       maxResultCount := MAX_RESULTS;
       circle_center := loc;
       circle_radius := RADIUS |} in
  res <- await_fetch net body ;;
  if negb (ok res) then lift (Throw (Error (res_text res))) else
  j <- lift (res_json res) ;;
  ret (default [] (places j)).

(** The whole of [resp.output_text.trim()] and [JSON.parse] is inside the
    [try]. *)
Definition analyzeSite (net : network) (url : string) : M json :=
  resp <- await_responses_create net url ;;
  try_catch
    (txt <- lift (match output_text resp with
                  | Some s => Normal (trim s)
                  | None => Throw TypeError
                  end) ;;
     lift (JSON_parse txt))
    (fun _ => ret no_sale).

(** [if (p.id && !byId.has(p.id)) byId.set(p.id, p)]. *)
Definition add_place (byId : Map string place) (p : place) : Map string place :=
  match id p with
  | Some i =>
      if truthy_string i && negb (Map_has i byId) then Map_set i p byId else byId
  | None => byId
  end.

(** The inner loop of step 1 over the places of one query. *)
Definition add_places (byId : Map string place) (ps : list place) : Map string place :=
  foldl add_place byId ps.

(** Step 1 on result sets that are already there: the merge alone. *)
Definition merge (results : list (list place)) : Map string place :=
  foldl add_places Map_new results.

(** Step 1 of the async function; [rawCount] only feeds a log line and is
    left out with the logging. *)
Definition collect (net : network) : M (Map string place) :=
  for_of LOCATIONS
    (fun byId loc =>
       ps <- queryPlaces net loc ;;
       ret (add_places byId ps))
    Map_new.

(** The body of the async function. *)
Definition main (net : network) : M unit :=
  byId <- collect net ;;
  features <- for_of (Map_values byId) (scan (analyzeSite net)) [] ;;
  await_writeFile net "stores.geojson" {| features := features |}.

(** The module from its first statement: the check of the keys, then
    [main]. *)
Definition run (env : process_env) (net : network) : trace * completion unit :=
  if keys_missing env then ([], Throw (Error "Missing API keys in .env"))
  else main net [].

End Builtins.

End FetchSales.

(** ** The single-centre crawler (third document of [src/app.js]) *)

Module FetchSalesKamppi.

Definition center : Crawl.center := {| lat := 60.169168; lng := 24.930956 |}.
Definition radius : number := 500.
Definition maxResults : nat := 10.

Section Builtins.

Variable trim : string -> string.
Variable JSON_parse : string -> completion json.

Definition queryPlaces (net : network) : M (list place) :=
  let body :=
    {| includedTypes := ["store"%string];
       maxResultCount := maxResults;
       circle_center := center;
       circle_radius := radius |} in
  res <- await_fetch net body ;;
  if negb (ok res) then lift (Throw (Error (res_text res))) else
  j <- lift (res_json res) ;;
  ret (default [] (places j)).

(** Here [resp.output_text.trim()] is before the [try]. *)
Definition analyzeSite (net : network) (url : string) : M json :=
  resp <- await_responses_create net url ;;
  txt <- lift (match output_text resp with
               | Some s => Normal (trim s)
               | None => Throw TypeError
               end) ;;
  try_catch (lift (JSON_parse txt)) (fun _ => ret no_sale).

Definition main (net : network) : M unit :=
  ps <- queryPlaces net ;;
  features <- for_of ps (scan (analyzeSite net)) [] ;;
  await_writeFile net "stores.geojson" {| features := features |}.

Definition run (env : process_env) (net : network) : trace * completion unit :=
  if keys_missing env
  then ([], Throw (Error "GOOGLE_API_KEY and OPENAI_API_KEY must be set in .env"))
  else main net [].

End Builtins.

End FetchSalesKamppi.

(** ** Notions used to state the properties *)

Module Props.

(** The first place of a list that carries the id [k]. *)
Fixpoint first_occurrence (k : string) (ps : list place) : option place :=
  match ps with
  | [] => None
  | p :: rest => if decide (id p = Some k) then Some p else first_occurrence k rest
  end.

(** [p.id] is truthy. *)
Definition has_id (p : place) : bool := truthy_opt_string (id p).

(** Every entry is filed under the truthy id of its place. *)
Definition well_keyed (byId : Map string place) : Prop :=
  Forall (λ e, id e.2 = Some e.1 /\ truthy_string e.1 = true) byId.

(** The same world, with the places that have no truthy id taken out of
    every Nearby Search answer. *)
Definition without_falsy_ids (net : network) : network :=
  {| fetch := fun t body =>
       match fetch net t body with
       | Normal res =>
           Normal {| ok := ok res;
                     res_text := res_text res;
                     res_json :=
                       match res_json res with
                       | Normal j => Normal {| places := filter has_id <$> places j |}
                       | Throw e => Throw e
                       end |}
       | Throw e => Throw e
       end;
     responses_create := responses_create net;
     fs_writeFile := fs_writeFile net |}.

End Props.
Import Props.

(** ** Sample data *)

Module Samples.

Definition store_at (lng lt : number) : feature :=
  {| feature_properties :=
       {| name := "UFF Vintage"; website := "https://uff.fi";
          headline := JStr "Sale"; discount := JNull |};
     feature_geometry := {| coordinates := (lng, lt) |} |}.

Definition uff : place :=
  {| id := Some "ChIJuff"%string;
     location := Some {| latitude := 60.1692; longitude := 24.9310 |};
     displayName := Some {| text := Some "UFF Vintage"%string |};
     websiteUri := Some "https://uff.fi"%string |}.

(** The same place as a later query returns it, without its website. *)
Definition uff_again : place :=
  {| id := Some "ChIJuff"%string;
     location := Some {| latitude := 60.1692; longitude := 24.9310 |};
     displayName := Some {| text := Some "UFF"%string |};
     websiteUri := None |}.

Definition kirjakauppa : place :=
  {| id := Some "ChIJkirja"%string;
     location := Some {| latitude := 60.1689; longitude := 24.9383 |};
     displayName := None;
     websiteUri := Some "https://kirjakauppa.example"%string |}.

(** Every Nearby Search returns [uff], the model answers in prose, the
    disk takes the file. *)
Definition chatty : network :=
  {| fetch := fun _ _ =>
       Normal {| ok := true; res_text := EmptyString;
                 res_json := Normal {| places := Some [uff] |} |};
     responses_create := fun _ _ =>
       Normal {| output_text := Some "I could not open the page."%string |};
     fs_writeFile := fun _ _ _ => Normal tt |}.

(** The store with a website and no id. *)
Definition nameless : place :=
  {| id := None;
     location := Some {| latitude := 60.1671; longitude := 24.9457 |};
     displayName := Some {| text := Some "Outlet"%string |};
     websiteUri := Some "https://outlet.example"%string |}.

(** The answer of a model that found a sale: an object with [sale] set,
    between braces and with its key between double quotes. *)
Definition sale_text : string :=
  "{" +:+ String "034"%char ("sale" +:+ String "034"%char ":true}").

(** Two places per Nearby Search, and a model that finds a sale on every
    site. *)
Definition bargain : network :=
  {| fetch := fun _ _ =>
       Normal {| ok := true; res_text := EmptyString;
                 res_json := Normal {| places := Some [uff; kirjakauppa] |} |};
     responses_create := fun _ _ => Normal {| output_text := Some sale_text |};
     fs_writeFile := fun _ _ _ => Normal tt |}.

(** As [bargain], with only the store without an id on the map. *)
Definition anonymous : network :=
  {| fetch := fun _ _ =>
       Normal {| ok := true; res_text := EmptyString;
                 res_json := Normal {| places := Some [nameless] |} |};
     responses_create := fun _ _ => Normal {| output_text := Some sale_text |};
     fs_writeFile := fun _ _ _ => Normal tt |}.

(** A parser that knows [sale_text] and the three literal names and
    rejects every other text. *)
Definition parse_literal (s : string) : completion json :=
  if decide (s = sale_text) then Normal (JObj [("sale"%string, JBool true)])
  else if decide (s = "null"%string) then Normal JNull
  else if decide (s = "true"%string) then Normal (JBool true)
  else if decide (s = "false"%string) then Normal (JBool false)
  else Throw SyntaxError.

Definition both_keys : process_env :=
  {| GOOGLE_API_KEY := Some "AIza-test"%string;
     OPENAI_API_KEY := Some "sk-test"%string |}.

Definition no_google_key : process_env :=
  {| GOOGLE_API_KEY := None; OPENAI_API_KEY := Some "sk-test"%string |}.

End Samples.
Import Samples.

(** ** Notions used to state the shape of a run *)

Module Shapes.

Definition is_fetch (ev : event) : Prop :=
  match ev with Fetch _ => True | _ => False end.

(** The URLs the loop over the stores analyses: the truthy [websiteUri]s,
    in order. *)
Definition websites (ps : list place) : list string :=
  omap (λ p, match websiteUri p with
             | Some url => if truthy_string url then Some url else None
             | None => None
             end) ps.

(** [f] is the feature the loop writes for the place [p]. *)
Definition written_from (p : place) (f : feature) : Prop :=
  exists url loc,
    websiteUri p = Some url /\ truthy_string url = true /\
    location p = Some loc /\
    website (feature_properties f) = url /\
    name (feature_properties f) = or_string (displayName p ≫= text) "(unnamed)" /\
    coordinates (feature_geometry f) = (longitude loc, latitude loc) /\
    truthy (headline (feature_properties f)) = true /\
    (discount (feature_properties f) = JNull \/
     truthy (discount (feature_properties f)) = true).

(** An [analyzeSite] that makes exactly one request, for the URL it is
    given. *)
Definition one_request (A : string -> M json) : Prop :=
  forall url t, (A url t).1 = t ++ [ResponsesCreate url].

(** Every Nearby Search succeeds and finds nothing: the body has no
    [places], or an empty list. *)
Definition finds_nothing (net : network) : Prop :=
  forall t body, exists res,
    fetch net t body = Normal res /\ ok res = true /\
    (res_json res = Normal {| places := None |} \/
     res_json res = Normal {| places := Some [] |}).

(** The request body of the multi-point crawler for the centre [loc]. *)
Definition body_of (loc : center) : searchBody :=
  {| includedTypes := FetchSales.INCLUDED_TYPES;
     maxResultCount := FetchSales.MAX_RESULTS;
     circle_center := loc;
     circle_radius := FetchSales.RADIUS |}.

(** The Nearby Searches for the centres [locs], in order. *)
Definition searched (locs : list center) : trace :=
  Fetch <$> (body_of <$> locs).

(** What the search for [loc], made after the calls of [t], gives the
    crawler: the error of a rejected or failed request, or the places of
    the body (none when the body has no [places]). *)
Definition answer (net : network) (t : trace) (loc : center)
    : completion (list place) :=
  match fetch net t (body_of loc) with
  | Throw e => Throw e
  | Normal res =>
      if ok res then
        match res_json res with
        | Normal j => Normal (default [] (places j))
        | Throw e => Throw e
        end
      else Throw (Error (res_text res))
  end.

(** [results] are the result sets the network gives for the searches of
    [locs], made one after the other from the trace [t] on. *)
Fixpoint answered (net : network) (t : trace) (locs : list center)
    (results : list (list place)) : Prop :=
  match locs, results with
  | [], [] => True
  | loc :: locs', ps :: results' =>
      answer net t loc = Normal ps /\
      answered net (t ++ [Fetch (body_of loc)]) locs' results'
  | _, _ => False
  end.

End Shapes.
Import Shapes.

(** ** The pages *)

Module Page.

(** What a page does that its user can see. *)
Inductive action : Type :=
| NewMap (center : number * number) (zoom : nat)
| ViewerMarker (lngLat : number * number)
| Card (f : feature)
| StoreMarker (f : feature)
| Alert (message : string)
| ConsoleLog (total after : nat).

(** What the browser gives the page: the parsed data file, the position
    as (latitude, longitude) ([None] when the error callback is called),
    and whether the map fires [load]. *)
Record browser : Type := {
  stores_geojson : completion featureCollection;
  position : option (number * number);
  map_loads : bool
}.

(** The body of [for (const f of hits)]: a card in the list, then a marker
    on the map. *)
Definition render (hits : list feature) : list action :=
  flat_map (fun f => [Card f; StoreMarker f]) hits.

Definition cards (acts : list action) : list feature :=
  omap (fun a => match a with Card f => Some f | _ => None end) acts.

Definition store_markers (acts : list action) : list feature :=
  omap (fun a => match a with StoreMarker f => Some f | _ => None end) acts.


End Page.
Import Page.

Module FilteringPage.

(** [run()] of [src/unnamed/part_000]. *)
Definition run (w : browser) : list action * completion unit :=
  match stores_geojson w with
  | Throw e => ([], Throw e)
  | Normal geojson =>
      match position w with
      | Some (lat, lon) =>
          (NewMap (lon, lat) 15 :: ViewerMarker (lon, lat)
             :: render (Filtering.hits lat lon geojson),
           Normal tt)
      | None => ([Alert "Can’t get your location 😢"], Normal tt)
      end
  end.

End FilteringPage.

Module UnfilteredPage.

(** [run()] of [src/app.js]: the stores are added when the map has
    loaded. *)
Definition run (w : browser) : list action * completion unit :=
  match stores_geojson w with
  | Throw e => ([], Throw e)
  | Normal geojson =>
      match position w with
      | Some (lat, lon) =>
          (NewMap (lon, lat) 15 :: ViewerMarker (lon, lat)
             :: (if map_loads w then
                   let hits := Unfiltered.hits lat lon geojson in
                   ConsoleLog (length (features geojson)) (length hits)
                     :: render hits
                 else []),
           Normal tt)
      | None => ([Alert "Can’t get your location 😢"], Normal tt)
      end
  end.

End UnfilteredPage.

(** ** More sample data *)

Module MoreSamples.

(** As [chatty], with a model whose request is rejected. *)
Definition unreachable_model : network :=
  {| fetch := fetch chatty;
     responses_create := fun _ _ => Throw (Error "429 Too Many Requests");
     fs_writeFile := fs_writeFile chatty |}.

(** As [chatty], with a model that answers [null]. *)
Definition terse : network :=
  {| fetch := fetch chatty;
     responses_create := fun _ _ => Normal {| output_text := Some "null"%string |};
     fs_writeFile := fs_writeFile chatty |}.

(** Every Nearby Search answers with a body without [places]. *)
Definition deserted : network :=
  {| fetch := fun _ _ =>
       Normal {| ok := true; res_text := EmptyString;
                 res_json := Normal {| places := None |} |};
     responses_create := responses_create chatty;
     fs_writeFile := fs_writeFile chatty |}.

(** A secret that is not set reaches the process as an empty string. *)
Definition empty_google_key : process_env :=
  {| GOOGLE_API_KEY := Some EmptyString; OPENAI_API_KEY := Some "sk-test"%string |}.

(** A viewer in Helsinki, one store out of reach, a map that loads. *)
Definition helsinki : browser :=
  {| stores_geojson := Normal {| features := [store_at 25.50 60.30] |};
     position := Some (60.17, 24.94);
     map_loads := true |}.


End MoreSamples.
Import MoreSamples.

(** * Properties *)

(** ** Distances *)

Section GeoFacts.

Implicit Types lat lon : number.

Lemma R_value : R = 6371000.
Proof. unfold R. lra. Qed.

Lemma R_pos : 0 < R.
Proof. rewrite R_value. lra. Qed.

Lemma PI_gt_3 : 3 < PI.
Proof. pose proof PI2_3_2. lra. Qed.

Lemma inv_PI_bounds : / 4 <= / PI < / 3.
Proof.
  pose proof PI_gt_3. pose proof PI_4.
  split.
  - apply Rinv_le_contravar; lra.
  - apply Rinv_lt_contravar; [nra | lra].
Qed.

Lemma div_PI_bounds x : 0 < x -> x / 4 <= x / PI < x / 3.
Proof.
  intros Hx. pose proof inv_PI_bounds as [Hl Hu]. unfold Rdiv. nra.
Qed.

Lemma toRad_opp d : toRad (- d) = - toRad d.
Proof. unfold toRad. lra. Qed.

Lemma toRad_0 : toRad 0 = 0.
Proof. unfold toRad. lra. Qed.


Lemma sin_sqr_opp x : sin (- x) ^ 2 = sin x ^ 2.
Proof. rewrite sin_neg. ring. Qed.


Lemma cos_toRad_pos lat : -90 < lat < 90 -> 0 < cos (toRad lat).
Proof.
  intros H. pose proof PI_RGT_0. apply cos_gt_0; unfold toRad; nra.
Qed.





(** The last line of [haversine] on [a = 0]. *)
Lemma arc_0 : 2 * R * asin (sqrt 0) = 0.
Proof. rewrite sqrt_0, asin_0. ring. Qed.

(** Rewrites the half-angle of a zero difference away. *)
Ltac no_difference :=
  rewrite ?toRad_0; replace (0 / 2) with 0 by lra; rewrite ?sin_0.

Lemma haversine_self lat lon : haversine lat lon lat lon = 0.
Proof.
  unfold haversine.
  replace (lat - lat) with 0 by lra.
  replace (lon - lon) with 0 by lra.
  no_difference.
  replace (0 ^ 2 + cos (toRad lat) * cos (toRad lat) * 0 ^ 2) with 0 by ring.
  apply arc_0.
Qed.


(** Along a meridian the formula is the length of the arc. *)
Lemma haversine_meridian lat1 lat2 lon :
  0 <= lat2 - lat1 <= 180 ->
  haversine lat1 lon lat2 lon = R * toRad (lat2 - lat1).
Proof.
  intros H. pose proof PI_RGT_0. unfold haversine.
  replace (lon - lon) with 0 by lra.
  no_difference.
  replace (sin (toRad (lat2 - lat1) / 2) ^ 2 +
           cos (toRad lat1) * cos (toRad lat2) * 0 ^ 2)
    with (sin (toRad (lat2 - lat1) / 2) ^ 2) by ring.
  assert (0 <= toRad (lat2 - lat1) / 2 <= PI / 2) as Hx by (unfold toRad; nra).
  rewrite sqrt_pow2 by (apply sin_ge_0; lra).
  rewrite asin_sin by lra. lra.
Qed.


(** The latitude half-width of the box at radius [r]. *)
Lemma dLat_bounds r : 0 < r -> r * 45 / R <= (r / R) * 180 / PI < r * 60 / R.
Proof.
  intros Hr. rewrite R_value.
  assert (0 < r / 6371000 * 180) as H by lra.
  pose proof (div_PI_bounds _ H). lra.
Qed.

End GeoFacts.

(** ** The proximity filter *)

Section FilterFacts.

Import Filtering.
Implicit Types lat lon : number.

Lemma hits_spec lat lon geojson f :
  f ∈ hits lat lon geojson <->
  keep (boundingBox lat lon None) lat lon f /\ f ∈ features geojson.
Proof. unfold hits. cbv zeta. apply list_elem_of_filter. Qed.

(** A feature to the north of the viewer by more than the half-width of
    the box is not kept. *)
Lemma north_of_box_dropped lat lon lng lt :
  lat + 500 * 60 / R <= lt ->
  ~ keep (boundingBox lat lon None) lat lon (store_at lng lt).
Proof.
  intros H (_ & Hmax & _). simpl in Hmax.
  assert (0 < 500) as H500 by lra.
  pose proof (dLat_bounds 500 H500). lra.
Qed.

(** A feature on the meridian of the viewer, to the north and inside the
    box, is kept. *)
Lemma on_meridian_kept lat lon lt :
  -90 < lat < 90 -> lat <= lt -> lt - lat < 500 * 45 / R ->
  keep (boundingBox lat lon None) lat lon (store_at lon lt).
Proof.
  intros Hlat Hle Hlt.
  assert (0 < 500) as H500 by lra.
  pose proof (dLat_bounds 500 H500) as [Hlo Hhi].
  pose proof (cos_toRad_pos lat Hlat) as Hc.
  assert (0 < 500 / R * 180 / PI) as HdLat.
  { rewrite R_value in *. lra. }
  pose proof (Rdiv_lt_0_compat _ _ HdLat Hc) as HdLon.
  unfold keep; simpl.
  repeat split; try lra.
  rewrite haversine_meridian.
  - rewrite R_value in *. unfold toRad. pose proof PI_4. pose proof PI_RGT_0. nra.
  - rewrite R_value in *. lra.
Qed.

(** C1. The filter tests the haversine distance against 10,000 m and the
    box of [boundingBox(lat, lon)], which is the box of the default 500 m:
    a store 0.01 degrees to the north of the viewer, about 1.1 km away, is
    in the data, is strictly inside the box of 10,000 m and within 10,000 m
    of the viewer, and is not among the hits. *)
Theorem hits_box_radius_mismatch :
  let f := store_at 24.94 60.18 in
  let b := boundingBox 60.17 24.94 (Some 10000) in
  f ∈ features {| features := [f] |} /\
  hits 60.17 24.94 {| features := [f] |} = [] /\
  (60.18 > latMin b /\ 60.18 < latMax b /\ 24.94 > lonMin b /\ 24.94 < lonMax b) /\
  haversine 60.17 24.94 60.18 24.94 <= 10000.
Proof.
  cbv zeta. split; [apply list_elem_of_singleton; reflexivity|]. split; [|split].
  - unfold hits; cbv zeta; simpl features.
    rewrite filter_cons_False, filter_nil; [reflexivity|].
    apply north_of_box_dropped. rewrite R_value. lra.
  - assert (0 < 10000) as Hr by lra.
    pose proof (dLat_bounds 10000 Hr) as [Hlo Hhi].
    assert (0 < cos (toRad 60.17)) as Hc by (apply cos_toRad_pos; lra).
    assert (0 < 10000 / R * 180 / PI) as HdLat by (rewrite R_value in *; lra).
    pose proof (Rdiv_lt_0_compat _ _ HdLat Hc) as HdLon.
    simpl. rewrite R_value in *. repeat split; lra.
  - rewrite haversine_meridian by lra.
    rewrite R_value. unfold toRad. pose proof PI_4. lra.
Qed.

(** C2. Every feature among the hits is within 10,000 m of the viewer by
    the haversine distance, for every viewer and every feature collection. *)
Theorem hits_within_radius lat lon geojson f :
  f ∈ hits lat lon geojson ->
  haversine lat lon (coordinates (feature_geometry f)).2
                    (coordinates (feature_geometry f)).1 <= 10000.
Proof.
  intros Hf. apply hits_spec in Hf as [Hkeep _].
  unfold keep in Hkeep. cbv zeta in Hkeep. tauto.
Qed.

(** A store 0.0005 degrees to the north of the viewer is a hit, and is
    within the radius. *)
Lemma hits_within_radius_witness :
  store_at 24.94 60.1705
    ∈ hits 60.17 24.94 {| features := [store_at 24.94 60.1705] |} /\
  haversine 60.17 24.94 60.1705 24.94 <= 10000.
Proof.
  assert (store_at 24.94 60.1705
            ∈ hits 60.17 24.94 {| features := [store_at 24.94 60.1705] |}) as H.
  { apply hits_spec. split.
    - apply on_meridian_kept; rewrite ?R_value; lra.
    - apply list_elem_of_singleton. reflexivity. }
  split; [exact H | exact (hits_within_radius _ _ _ _ H)].
Defined.

(** C7. The hits are a subsequence of the features of the data file: the
    features that are kept, in the order of the file. *)
Theorem hits_subsequence lat lon geojson :
  hits lat lon geojson `sublist_of` features geojson.
Proof. unfold hits. cbv zeta. apply sublist_filter. Qed.


End FilterFacts.

(** ** The distance *)

Section HaversineClaims.

Implicit Types lat lon : number.

(** C5. The haversine distance from a to b is the distance from b to a. *)
Theorem haversine_symmetric lat1 lon1 lat2 lon2 :
  haversine lat1 lon1 lat2 lon2 = haversine lat2 lon2 lat1 lon1.
Proof.
  unfold haversine.
  replace (lat1 - lat2) with (- (lat2 - lat1)) by lra.
  replace (lon1 - lon2) with (- (lon2 - lon1)) by lra.
  rewrite !toRad_opp.
  replace (- toRad (lat2 - lat1) / 2) with (- (toRad (lat2 - lat1) / 2)) by lra.
  replace (- toRad (lon2 - lon1) / 2) with (- (toRad (lon2 - lon1) / 2)) by lra.
  rewrite !sin_sqr_opp.
  rewrite (Rmult_comm (cos (toRad lat2))).
  reflexivity.
Qed.




End HaversineClaims.

(** ** Maps in insertion order *)

Section MapFacts.

Context {K V : Type} `{EqDecision K}.
Implicit Types (k : K) (v : V) (m : Map K V).

Lemma Map_get_app k m1 m2 :
  Map_get k (m1 ++ m2) =
  match Map_get k m1 with Some v => Some v | None => Map_get k m2 end.
Proof.
  induction m1 as [|[k' v'] m1 IH]; simpl; [reflexivity|].
  destruct (decide (k' = k)); [reflexivity | exact IH].
Qed.

(** [set] on a key that is not there appends the entry. *)
Lemma Map_set_fresh k v m : Map_get k m = None -> Map_set k v m = m ++ [(k, v)].
Proof.
  induction m as [|[k' v'] m IH]; simpl; [reflexivity|].
  destruct (decide (k' = k)); [discriminate|].
  intros Hm. rewrite IH by exact Hm. reflexivity.
Qed.

Lemma Map_has_false k m : Map_has k m = false <-> Map_get k m = None.
Proof. unfold Map_has. destruct (Map_get k m); split; congruence. Qed.

Lemma Map_get_None k m : Map_get k m = None <-> k ∉ Map_keys m.
Proof.
  unfold Map_keys.
  induction m as [|[k' v'] m IH]; simpl.
  - split; [intros _; apply not_elem_of_nil | reflexivity].
  - rewrite not_elem_of_cons. destruct (decide (k' = k)) as [->|Hne].
    + split; [discriminate | intros [? _]; congruence].
    + rewrite IH. split; [intros; split; [congruence | assumption] | tauto].
Qed.

(** With pairwise different keys, the entry that [get] finds is the only
    one under its key. *)
Lemma NoDup_keys_entries k v m :
  NoDup (Map_keys m) -> Map_get k m = Some v ->
  filter (λ e, e.1 = k) m = [(k, v)].
Proof.
  induction m as [|[k' v'] m IH]; [discriminate|].
  intros Hnd Hget. unfold Map_keys in Hnd. cbn [map fst] in Hnd.
  apply NoDup_cons in Hnd as [Hnotin Hnd]. cbn [Map_get] in Hget.
  destruct (decide (k' = k)) as [->|Hne].
  - injection Hget as ->.
    rewrite filter_cons_True by reflexivity. f_equal.
    apply (proj2 (Map_get_None k m)) in Hnotin.
    clear -Hnotin. induction m as [|[k1 v1] m IH]; [reflexivity|].
    cbn [Map_get] in Hnotin. destruct (decide (k1 = k)); [discriminate|].
    rewrite filter_cons_False by (cbn; congruence). auto.
  - rewrite filter_cons_False by (cbn; congruence). auto.
Qed.

End MapFacts.

(** ** The merge of the crawler *)

Section MergeFacts.

Import FetchSales.
Implicit Types (k : string) (p : place) (ps : list place) (byId : Map string place).

Lemma add_place_get k byId p :
  Map_get k (add_place byId p) =
  match Map_get k byId with
  | Some q => Some q
  | None => if decide (id p = Some k) then if truthy_string k then Some p else None
            else None
  end.
Proof.
  unfold add_place. destruct (id p) as [i|] eqn:Hid.
  - destruct (truthy_string i) eqn:Hi; simpl.
    + destruct (Map_has i byId) eqn:Hhas; simpl.
      * destruct (Map_get k byId) eqn:Hk; [reflexivity|].
        destruct (decide (Some i = Some k)) as [[= ->]|]; [|reflexivity].
        unfold Map_has in Hhas. rewrite Hk in Hhas. discriminate.
      * apply Map_has_false in Hhas.
        rewrite Map_set_fresh, Map_get_app by exact Hhas.
        destruct (Map_get k byId); [reflexivity|]. simpl.
        destruct (decide (i = k)) as [->|Hne].
        -- rewrite decide_True by reflexivity. rewrite Hi. reflexivity.
        -- rewrite decide_False by congruence. reflexivity.
    + destruct (Map_get k byId); [reflexivity|].
      destruct (decide (Some i = Some k)) as [[= ->]|]; [|reflexivity].
      rewrite Hi. reflexivity.
  - destruct (Map_get k byId); [reflexivity|].
    rewrite decide_False by discriminate. reflexivity.
Qed.

Lemma add_places_get k byId ps :
  Map_get k (add_places byId ps) =
  match Map_get k byId with
  | Some q => Some q
  | None => if truthy_string k then first_occurrence k ps else None
  end.
Proof.
  unfold add_places. revert byId.
  induction ps as [|p ps IH]; intros byId; simpl.
  - destruct (Map_get k byId), (truthy_string k); reflexivity.
  - rewrite IH, add_place_get.
    destruct (Map_get k byId); [reflexivity|].
    destruct (decide (id p = Some k)), (truthy_string k); reflexivity.
Qed.

Lemma add_place_NoDup byId p :
  NoDup (Map_keys byId) -> NoDup (Map_keys (add_place byId p)).
Proof.
  intros Hnd. unfold add_place. destruct (id p) as [i|]; [|exact Hnd].
  destruct (truthy_string i); simpl; [|exact Hnd].
  destruct (Map_has i byId) eqn:Hhas; simpl; [exact Hnd|].
  apply Map_has_false in Hhas. rewrite Map_set_fresh by exact Hhas.
  unfold Map_keys in *. rewrite map_app. simpl.
  apply NoDup_app. split; [exact Hnd|]. split.
  - intros x Hx Hin. apply list_elem_of_singleton in Hin as ->.
    apply Map_get_None in Hhas. contradiction.
  - apply NoDup_singleton.
Qed.

Lemma add_places_NoDup byId ps :
  NoDup (Map_keys byId) -> NoDup (Map_keys (add_places byId ps)).
Proof.
  unfold add_places. revert byId.
  induction ps as [|p ps IH]; intros byId Hnd; simpl; [exact Hnd|].
  apply IH, add_place_NoDup, Hnd.
Qed.

(** Merging the result sets one after the other is merging their
    concatenation. *)
Lemma merge_concat results : merge results = add_places Map_new (concat results).
Proof.
  unfold merge. generalize (@Map_new string place).
  induction results as [|ps results IH]; intros byId; simpl; [reflexivity|].
  rewrite IH. unfold add_places. rewrite foldl_app. reflexivity.
Qed.

Lemma merge_NoDup results : NoDup (Map_keys (merge results)).
Proof. rewrite merge_concat. apply add_places_NoDup. constructor. Qed.

Lemma merge_get k results :
  Map_get k (merge results) =
  if truthy_string k then first_occurrence k (concat results) else None.
Proof. rewrite merge_concat, add_places_get. reflexivity. Qed.

Lemma add_place_well_keyed byId p : well_keyed byId -> well_keyed (add_place byId p).
Proof.
  intros Hwk. unfold add_place. destruct (id p) as [i|] eqn:Hid; [|exact Hwk].
  destruct (truthy_string i) eqn:Hi; simpl; [|exact Hwk].
  destruct (Map_has i byId) eqn:Hhas; simpl; [exact Hwk|].
  apply Map_has_false in Hhas. rewrite Map_set_fresh by exact Hhas.
  apply Forall_app. split; [exact Hwk|].
  apply Forall_singleton. simpl. auto.
Qed.

Lemma add_places_well_keyed byId ps : well_keyed byId -> well_keyed (add_places byId ps).
Proof.
  unfold add_places. revert byId.
  induction ps as [|p ps IH]; intros byId Hwk; simpl; [exact Hwk|].
  apply IH, add_place_well_keyed, Hwk.
Qed.

Lemma merge_well_keyed results : well_keyed (merge results).
Proof. rewrite merge_concat. apply add_places_well_keyed. constructor. Qed.

Lemma add_place_falsy byId p : has_id p = false -> add_place byId p = byId.
Proof.
  unfold has_id, add_place. destruct (id p) as [i|]; simpl; [|reflexivity].
  intros ->. reflexivity.
Qed.

Lemma add_places_filter byId ps :
  add_places byId (filter has_id ps) = add_places byId ps.
Proof.
  unfold add_places. revert byId.
  induction ps as [|p ps IH]; intros byId; [reflexivity|].
  destruct (has_id p) eqn:Hp.
  - rewrite filter_cons_True by (rewrite Hp; exact I). simpl. apply IH.
  - rewrite filter_cons_False by (rewrite Hp; exact (fun H => H)). simpl.
    rewrite add_place_falsy by exact Hp. apply IH.
Qed.

(** C3. Over any sequence of result sets, the entries of the merged map
    have pairwise different keys, and for a place id [k] whose first
    occurrence in query order is the place [p], the map has exactly one
    entry under [k], and it holds [p]. *)
Theorem merge_first_occurrence_wins (results : list (list place)) k p :
  truthy_string k = true ->
  first_occurrence k (concat results) = Some p ->
  NoDup (Map_keys (merge results)) /\
  Map_get k (merge results) = Some p /\
  filter (λ e, e.1 = k) (merge results) = [(k, p)].
Proof.
  intros Hk Hfirst.
  assert (Map_get k (merge results) = Some p) as Hget.
  { rewrite merge_get, Hk. exact Hfirst. }
  split; [apply merge_NoDup|]. split; [exact Hget|].
  apply NoDup_keys_entries; [apply merge_NoDup | exact Hget].
Qed.

(** Two queries return the same id; the entry is the place of the first. *)
Lemma merge_first_occurrence_wins_witness :
  NoDup (Map_keys (merge [[uff; kirjakauppa]; [uff_again]])) /\
  Map_get "ChIJuff"%string (merge [[uff; kirjakauppa]; [uff_again]]) = Some uff /\
  filter (λ e, e.1 = "ChIJuff"%string) (merge [[uff; kirjakauppa]; [uff_again]])
    = [("ChIJuff"%string, uff)].
Proof.
  apply (merge_first_occurrence_wins [[uff; kirjakauppa]; [uff_again]] "ChIJuff" uff);
    reflexivity.
Defined.

End MergeFacts.

(** ** Loops and exceptions *)

Section Effects.

Lemma for_of_app {A S} (l1 l2 : list A) (body : S -> A -> M S) (s : S) (t : trace) :
  for_of (l1 ++ l2) body s t =
  match for_of l1 body s t with
  | (t', Normal s') => for_of l2 body s' t'
  | (t', Throw e) => (t', Throw e)
  end.
Proof.
  revert s t. induction l1 as [|x l1 IH]; intros s t; simpl; [reflexivity|].
  unfold bind. destruct (body s x t) as [t' [s'|e]]; [apply IH | reflexivity].
Qed.

(** A [catch] that returns normally makes the whole [try] return normally. *)
Lemma try_catch_ret {A} (m : M A) (a : A) (t : trace) :
  exists t' a', try_catch m (fun _ => ret a) t = (t', Normal a').
Proof.
  unfold try_catch, ret. destruct (m t) as [t' [a'|e]]; eauto.
Qed.

(** The body of the loop over the stores catches whatever it raises. *)
Lemma scan_normal analyzeSite features p t :
  exists t' features', scan analyzeSite features p t = (t', Normal features').
Proof.
  unfold scan. destruct (websiteUri p) as [url|]; [|unfold ret; eauto].
  destruct (negb (truthy_string url)); [unfold ret; eauto|].
  apply try_catch_ret.
Qed.

Lemma for_of_scan_normal analyzeSite ps features t :
  exists t' features',
    for_of ps (scan analyzeSite) features t = (t', Normal features').
Proof.
  revert features t. induction ps as [|p ps IH]; intros features t; simpl.
  - unfold ret; eauto.
  - unfold bind.
    destruct (scan_normal analyzeSite features p t) as (t' & fs' & ->).
    apply IH.
Qed.

(** A store whose analysis says "no sale" adds no feature. *)
Lemma scan_no_sale analyzeSite features p url t t' :
  websiteUri p = Some url -> truthy_string url = true ->
  analyzeSite url t = (t', Normal no_sale) ->
  scan analyzeSite features p t = (t', Normal features).
Proof.
  intros Hp Hurl Ha. unfold scan. rewrite Hp, Hurl. simpl.
  unfold try_catch, bind. rewrite Ha. reflexivity.
Qed.

End Effects.

(** ** The crawlers *)

Section CrawlerFacts.

Import FetchSales.
Variable trim : string -> string.
Variable JSON_parse : string -> completion json.

Lemma analyzeSite_malformed net t url txt e :
  responses_create net t url = Normal {| output_text := Some txt |} ->
  JSON_parse (trim txt) = Throw e ->
  analyzeSite trim JSON_parse net url t
    = (t ++ [ResponsesCreate url], Normal no_sale).
Proof.
  intros Hresp Hparse.
  unfold analyzeSite, bind, await_responses_create, try_catch, lift, ret.
  rewrite Hresp. simpl. rewrite Hparse. reflexivity.
Qed.

(** What step 1 leaves in [byId] is the merge of the result sets of its
    queries. *)
Lemma collect_merges net t t' byId :
  collect net t = (t', Normal byId) ->
  exists results, length results = length LOCATIONS /\ byId = merge results.
Proof.
  unfold collect, merge. generalize (@Map_new string place) LOCATIONS.
  intros m locs. revert m t.
  induction locs as [|loc locs IH]; intros m t; cbn [for_of].
  - unfold ret. intros [= _ <-]. exists []. split; reflexivity.
  - unfold bind at 1 2.
    destruct (queryPlaces net loc t) as [t1 [ps|e]]; [|discriminate].
    unfold ret at 1. intros Hrest.
    destruct (IH _ _ Hrest) as (results & Hlen & ->).
    exists (ps :: results). split; [simpl; congruence | reflexivity].
Qed.

Lemma queryPlaces_without_falsy_ids net loc t :
  queryPlaces (without_falsy_ids net) loc t =
  match queryPlaces net loc t with
  | (t', Normal ps) => (t', Normal (filter has_id ps))
  | (t', Throw e) => (t', Throw e)
  end.
Proof.
  unfold queryPlaces, bind, await_fetch, lift, ret. simpl.
  destruct (fetch net t _) as [res|e]; [|reflexivity]. simpl.
  destruct (ok res); simpl; [|reflexivity].
  destruct (res_json res) as [j|e]; [|reflexivity]. simpl.
  destruct (places j); reflexivity.
Qed.

Lemma collect_without_falsy_ids net t :
  collect (without_falsy_ids net) t = collect net t.
Proof.
  unfold collect. generalize (@Map_new string place) LOCATIONS.
  intros byId locs. revert byId t.
  induction locs as [|loc locs IH]; intros byId t; [reflexivity|].
  cbn [for_of]. unfold bind at 1 2 4 5.
  rewrite queryPlaces_without_falsy_ids.
  destruct (queryPlaces net loc t) as [t' [ps|e]]; [|reflexivity].
  unfold ret at 1 3. rewrite add_places_filter. apply IH.
Qed.

(** C4. When the loop over the stores reaches a store whose answer from
    the model does not parse as JSON, [analyzeSite] returns [{sale:false}],
    the store adds no feature, and the run goes on through the remaining
    stores to the file write without throwing: what is written is what the
    remaining stores add to the features collected before. *)
Theorem malformed_response_skipped env net tq byId ps1 p ps2 t1 features1 url txt e :
  keys_missing env = false ->
  collect net [] = (tq, Normal byId) ->
  Map_values byId = ps1 ++ p :: ps2 ->
  for_of ps1 (scan (analyzeSite trim JSON_parse net)) [] tq = (t1, Normal features1) ->
  websiteUri p = Some url -> truthy_string url = true ->
  responses_create net t1 url = Normal {| output_text := Some txt |} ->
  JSON_parse (trim txt) = Throw e ->
  analyzeSite trim JSON_parse net url t1
    = (t1 ++ [ResponsesCreate url], Normal no_sale) /\
  scan (analyzeSite trim JSON_parse net) features1 p t1
    = (t1 ++ [ResponsesCreate url], Normal features1) /\
  exists t2 features2,
    for_of ps2 (scan (analyzeSite trim JSON_parse net)) features1
      (t1 ++ [ResponsesCreate url]) = (t2, Normal features2) /\
    run trim JSON_parse env net
      = (t2 ++ [WriteFile "stores.geojson" {| features := features2 |}],
         fs_writeFile net t2 "stores.geojson" {| features := features2 |}).
Proof.
  intros Hkeys Hcollect Hvalues Hloop Hp Hurl Hresp Hparse.
  pose proof (analyzeSite_malformed net t1 url txt e Hresp Hparse) as Ha.
  pose proof (scan_no_sale _ features1 p url t1 _ Hp Hurl Ha) as Hs.
  split; [exact Ha|]. split; [exact Hs|].
  destruct (for_of_scan_normal (analyzeSite trim JSON_parse net) ps2 features1
              (t1 ++ [ResponsesCreate url])) as (t2 & features2 & Hrest).
  exists t2, features2. split; [exact Hrest|].
  unfold run. rewrite Hkeys. unfold main.
  unfold bind at 1. rewrite Hcollect.
  unfold bind at 1. rewrite Hvalues, for_of_app, Hloop.
  cbn [for_of]. unfold bind at 1. rewrite Hs, Hrest. reflexivity.
Qed.

(** C9. With either key absent, both crawlers throw before any call is
    made: the trace is empty, so there is no Nearby Search, no request to
    the model and no file write. *)
Theorem missing_key_aborts env net :
  GOOGLE_API_KEY env = None \/ OPENAI_API_KEY env = None ->
  FetchSales.run trim JSON_parse env net
    = ([], Throw (Error "Missing API keys in .env")) /\
  FetchSalesKamppi.run trim JSON_parse env net
    = ([], Throw (Error "GOOGLE_API_KEY and OPENAI_API_KEY must be set in .env")).
Proof.
  intros Hmissing.
  assert (keys_missing env = true) as Hk.
  { unfold keys_missing. destruct Hmissing as [-> | ->]; simpl;
      [reflexivity | apply orb_true_r]. }
  unfold FetchSales.run, FetchSalesKamppi.run. rewrite Hk. split; reflexivity.
Qed.

(** C10. Every place in the merged map has a truthy id, so a place
    without one is not in it; and the run is the run of a world in which the
    places without a truthy id were never returned: the same calls in the
    same order, the same file, the same completion. *)
Theorem falsy_id_dropped :
  (forall results,
     Forall (λ p, has_id p = true) (Map_values (merge results))) /\
  (forall env net,
     FetchSales.run trim JSON_parse env (without_falsy_ids net)
       = FetchSales.run trim JSON_parse env net).
Proof.
  split.
  - intros results. unfold Map_values. apply Forall_fmap.
    eapply Forall_impl; [apply merge_well_keyed|].
    intros [k p] [Hid Hk]. simpl in *. unfold has_id. rewrite Hid. exact Hk.
  - intros env net. unfold FetchSales.run.
    destruct (keys_missing env); [reflexivity|].
    unfold main. unfold bind at 1 4.
    rewrite collect_without_falsy_ids. reflexivity.
Qed.

End CrawlerFacts.

(** The ten queries each return [uff]; the model answers in prose; the
    file is written with no feature. *)
Lemma malformed_response_skipped_witness :
  FetchSales.analyzeSite (fun s => s) parse_literal chatty "https://uff.fi"
      (FetchSales.collect chatty []).1
    = ((FetchSales.collect chatty []).1 ++ [ResponsesCreate "https://uff.fi"],
       Normal no_sale) /\
  FetchSales.run (fun s => s) parse_literal both_keys chatty
    = ((FetchSales.collect chatty []).1 ++
         [ResponsesCreate "https://uff.fi";
          WriteFile "stores.geojson" {| features := [] |}],
       Normal tt).
Proof.
  destruct (malformed_response_skipped (fun s => s) parse_literal both_keys chatty
              (FetchSales.collect chatty []).1 [("ChIJuff"%string, uff)]
              [] uff [] (FetchSales.collect chatty []).1 []
              "https://uff.fi" "I could not open the page." SyntaxError)
    as (Ha & _ & t2 & features2 & Hrest & Hrun); try reflexivity.
  split; [exact Ha|].
  injection Hrest as <- <-. rewrite Hrun. reflexivity.
Defined.

(** No Google key in the environment. *)
Lemma missing_key_aborts_witness :
  FetchSales.run (fun s => s) parse_literal no_google_key chatty
    = ([], Throw (Error "Missing API keys in .env")) /\
  FetchSalesKamppi.run (fun s => s) parse_literal no_google_key chatty
    = ([], Throw (Error "GOOGLE_API_KEY and OPENAI_API_KEY must be set in .env")).
Proof.
  apply (missing_key_aborts (fun s => s) parse_literal no_google_key chatty).
  left; reflexivity.
Defined.

(** ** The crawler on the sample worlds *)

Section Runs.

Import FetchSales.

(** Ten queries return the same two places; each is analysed once, and
    both are written, the second under the name that stands for none. *)
Example run_bargain :
  exists t,
    run (fun s => s) parse_literal both_keys bargain
      = (t ++ [ResponsesCreate "https://uff.fi";
               ResponsesCreate "https://kirjakauppa.example";
               WriteFile "stores.geojson"
                 {| features := [
                      {| feature_properties :=
                           {| name := "UFF Vintage"; website := "https://uff.fi";
                              headline := JStr "Sale"; discount := JNull |};
                         feature_geometry := {| coordinates := (24.9310, 60.1692) |} |};
                      {| feature_properties :=
                           {| name := "(unnamed)";
                              website := "https://kirjakauppa.example";
                              headline := JStr "Sale"; discount := JNull |};
                         feature_geometry := {| coordinates := (24.9383, 60.1689) |} |}
                    ] |}],
         Normal tt) /\
    length t = 10%nat /\
    Forall (λ ev, match ev with Fetch _ => True | _ => False end) t.
Proof.
  exists (collect bargain []).1. split; [reflexivity|].
  split; [reflexivity|]. repeat constructor.
Qed.

(** A store without an id is not analysed and not written, sale or not. *)
Example run_anonymous :
  run (fun s => s) parse_literal both_keys anonymous
    = ((collect anonymous []).1 ++ [WriteFile "stores.geojson" {| features := [] |}],
       Normal tt) /\
  Forall (λ ev, match ev with Fetch _ => True | _ => False end)
    (collect anonymous []).1.
Proof.
  split; [reflexivity|]. repeat constructor.
Qed.

(** The single-centre crawler has no merge: it analyses the same store
    and writes its sale. *)
Example run_anonymous_single_centre :
  exists body,
    FetchSalesKamppi.run (fun s => s) parse_literal both_keys anonymous
      = ([Fetch body; ResponsesCreate "https://outlet.example";
          WriteFile "stores.geojson"
            {| features := [
                 {| feature_properties :=
                      {| name := "Outlet"; website := "https://outlet.example";
                         headline := JStr "Sale"; discount := JNull |};
                    feature_geometry := {| coordinates := (24.9457, 60.1671) |} |}
               ] |}],
         Normal tt).
Proof. eexists. reflexivity. Qed.

End Runs.

(** * Further properties *)

(** ** The box *)

Section BoxFacts.

Implicit Types lat lon : number.

Lemma half_width_pos r : 0 < r -> 0 < (r / R) * 180 / PI.
Proof.
  intros Hr. pose proof (dLat_bounds r Hr) as [Hlo _].
  rewrite R_value in *. lra.
Qed.

Lemma cos_toRad_le_1 lat : cos (toRad lat) <= 1.
Proof. pose proof (COS_bound (toRad lat)). lra. Qed.

(** Dividing by the cosine of a latitude off the poles does not shrink. *)
Lemma div_cos_ge x lat : -90 < lat < 90 -> 0 <= x -> x <= x / cos (toRad lat).
Proof.
  intros Hlat Hx. pose proof (cos_toRad_pos lat Hlat) as Hc.
  pose proof (cos_toRad_le_1 lat) as Hc1.
  apply (Rmult_le_reg_r (cos (toRad lat))); [exact Hc|].
  unfold Rdiv. rewrite Rmult_assoc, Rinv_l by lra. nra.
Qed.

(** X8. Off the poles, the box of a larger radius contains the box of a
    smaller one. *)
Theorem boundingBox_grows_with_radius lat lon r1 r2 :
  0 < r1 <= r2 -> -90 < lat < 90 ->
  let b1 := boundingBox lat lon (Some r1) in
  let b2 := boundingBox lat lon (Some r2) in
  latMin b2 <= latMin b1 /\ latMax b1 <= latMax b2 /\
  lonMin b2 <= lonMin b1 /\ lonMax b1 <= lonMax b2.
Proof.
  intros Hr Hlat. cbv zeta. unfold boundingBox. cbn [latMin latMax lonMin lonMax default from_option Datatypes.id].
  pose proof (cos_toRad_pos lat Hlat) as Hc.
  pose proof (Rinv_0_lt_compat _ Hc) as Hic.
  pose proof (half_width_pos 1 Rlt_0_1) as Hk.
  replace (r1 / R * 180 / PI) with (r1 * (1 / R * 180 / PI)) by (unfold Rdiv; ring).
  replace (r2 / R * 180 / PI) with (r2 * (1 / R * 180 / PI)) by (unfold Rdiv; ring).
  set (k := 1 / R * 180 / PI) in *.
  assert (r1 * k <= r2 * k) as Hd by nra.
  assert (r1 * k / cos (toRad lat) <= r2 * k / cos (toRad lat)) by (unfold Rdiv; nra).
  repeat split; lra.
Qed.

Lemma boundingBox_grows_with_radius_witness :
  let b1 := boundingBox 60.17 24.94 (Some 500) in
  let b2 := boundingBox 60.17 24.94 (Some 10000) in
  latMin b2 <= latMin b1 /\ latMax b1 <= latMax b2 /\
  lonMin b2 <= lonMin b1 /\ lonMax b1 <= lonMax b2.
Proof.
  apply (boundingBox_grows_with_radius 60.17 24.94 500 10000); lra.
Defined.

(** The half-width of the box in latitude is an arc of [r] metres. *)
End BoxFacts.

Section MoreFilterFacts.

Import Filtering.
Implicit Types lat lon : number.

Lemma keep_default_box lat lon f :
  keep (boundingBox lat lon None) lat lon f <->
  (let lng := (coordinates (feature_geometry f)).1 in
   let lt := (coordinates (feature_geometry f)).2 in
   lat - 500 / R * 180 / PI < lt < lat + 500 / R * 180 / PI /\
   lon - 500 / R * 180 / PI / cos (toRad lat) < lng
     < lon + 500 / R * 180 / PI / cos (toRad lat) /\
   haversine lat lon lt lng <= 10000).
Proof.
  unfold keep, boundingBox. cbn [latMin latMax lonMin lonMax default from_option Datatypes.id]. cbv zeta.
  split; intros H; repeat split; try apply H; lra.
Qed.

(** X10. For a viewer off the poles, a feature of the data file at the
    viewer's own position is among the hits. *)
Theorem viewer_position_is_hit lat lon geojson f :
  -90 < lat < 90 ->
  f ∈ features geojson ->
  coordinates (feature_geometry f) = (lon, lat) ->
  f ∈ hits lat lon geojson.
Proof.
  intros Hlat Hin Hco. apply hits_spec. split; [|exact Hin].
  apply keep_default_box. rewrite Hco. cbn [fst snd]. cbv zeta.
  assert (0 < 500) as H500 by lra.
  pose proof (half_width_pos 500 H500) as HdLat.
  pose proof (div_cos_ge _ lat Hlat (Rlt_le _ _ HdLat)) as HdLon.
  rewrite haversine_self. repeat split; lra.
Qed.

Lemma viewer_position_is_hit_witness :
  store_at 24.94 60.17 ∈ hits 60.17 24.94 {| features := [store_at 24.94 60.17] |}.
Proof.
  apply (viewer_position_is_hit 60.17 24.94 _ (store_at 24.94 60.17)).
  - lra.
  - apply list_elem_of_singleton. reflexivity.
  - reflexivity.
Defined.

(** X11. The meridian arc between the latitude of any hit and the
    latitude of the viewer is under 500 m. *)
Theorem hits_under_500_m_of_latitude lat lon geojson f :
  f ∈ hits lat lon geojson ->
  R * toRad (Rabs ((coordinates (feature_geometry f)).2 - lat)) < 500.
Proof.
  intros Hf. apply hits_spec in Hf as [Hkeep _].
  apply keep_default_box in Hkeep. cbv zeta in Hkeep.
  destruct Hkeep as (Hlt & _ & _).
  set (lt := (coordinates (feature_geometry f)).2) in *.
  pose proof R_pos. pose proof PI_RGT_0.
  assert (Rabs (lt - lat) < 500 / R * 180 / PI) as Habs.
  { apply Rabs_def1; lra. }
  assert (R * toRad (500 / R * 180 / PI) = 500) as <-.
  { unfold toRad. field. split; lra. }
  set (d := 500 / R * 180 / PI) in *. set (x := Rabs (lt - lat)) in *.
  assert (toRad x < toRad d) by (unfold toRad; nra).
  nra.
Qed.

Lemma hits_under_500_m_of_latitude_witness :
  R * toRad (Rabs (60.1705 - 60.17)) < 500.
Proof.
  refine (hits_under_500_m_of_latitude 60.17 24.94
            {| features := [store_at 24.94 60.1705] |} (store_at 24.94 60.1705) _).
  apply hits_spec. split.
  - apply on_meridian_kept; rewrite ?R_value; lra.
  - apply list_elem_of_singleton. reflexivity.
Defined.

End MoreFilterFacts.

(** ** The loop over the stores *)

Section LoopFacts.

Implicit Types (A : string -> M json) (p : place) (ps : list place)
  (features : list feature) (t : trace).

Lemma or_else_truthy v d : truthy d = true -> truthy (or_else v d) = true.
Proof.
  intros Hd. destruct v as [x|]; simpl; [|exact Hd].
  destruct (truthy x) eqn:Hx; [exact Hx | exact Hd].
Qed.

Lemma or_else_null v : or_else v JNull = JNull \/ truthy (or_else v JNull) = true.
Proof.
  destruct v as [x|]; simpl; [|left; reflexivity].
  destruct (truthy x) eqn:Hx; [right; exact Hx | left; reflexivity].
Qed.

Lemma scan_trace A features p t :
  one_request A -> (scan A features p t).1 = t ++ (ResponsesCreate <$> websites [p]).
Proof.
  intros HA. unfold scan, websites. cbn [omap list_omap].
  destruct (websiteUri p) as [url|]; [|simpl; rewrite app_nil_r; reflexivity].
  destruct (truthy_string url); simpl; [|rewrite app_nil_r; reflexivity].
  unfold try_catch, bind. specialize (HA url t).
  destruct (A url t) as [t1 [info|e]]; simpl in HA; subst t1; [|reflexivity].
  unfold lift, ret.
  destruct (get info "sale") as [sale|e]; [|reflexivity].
  destruct (truthy_opt sale); [|reflexivity].
  destruct (get info "headline"); [|reflexivity].
  destruct (get info "discount"); [|reflexivity].
  destruct (location p); reflexivity.
Qed.

Lemma scan_result A features p t :
  exists t' new,
    scan A features p t = (t', Normal (features ++ new)) /\
    (new = [] \/ exists f, new = [f] /\ written_from p f).
Proof.
  assert (forall t', exists t'' new,
             (t', Normal features) = (t'', Normal (features ++ new)) /\
             (new = [] \/ exists f, new = [f] /\ written_from p f)) as Hskip.
  { intros t'. exists t', []. rewrite app_nil_r. auto. }
  unfold scan.
  destruct (websiteUri p) as [url|] eqn:Hp; [|apply Hskip].
  destruct (truthy_string url) eqn:Hurl; simpl; [|apply Hskip].
  unfold try_catch, bind.
  destruct (A url t) as [t1 [info|e]]; [|apply Hskip].
  unfold lift, ret.
  destruct (get info "sale") as [sale|e]; [|apply Hskip].
  destruct (truthy_opt sale); [|apply Hskip].
  destruct (get info "headline") as [h|]; [|apply Hskip].
  destruct (get info "discount") as [d|]; [|apply Hskip].
  destruct (location p) as [loc|] eqn:Hloc; [|apply Hskip].
  eexists _, [_]. split; [reflexivity|]. right. eexists. split; [reflexivity|].
  exists url, loc. simpl.
  repeat split; auto using or_else_truthy, or_else_null.
Qed.

Lemma for_of_scan_trace A ps features t :
  one_request A ->
  (for_of ps (scan A) features t).1 = t ++ (ResponsesCreate <$> websites ps).
Proof.
  intros HA. revert features t.
  induction ps as [|p ps IH]; intros features t.
  - simpl. rewrite app_nil_r. reflexivity.
  - cbn [for_of]. unfold bind.
    pose proof (scan_trace A features p t HA) as Ht.
    destruct (scan_normal A features p t) as (t1 & fs1 & Hs).
    rewrite Hs in Ht |- *. simpl in Ht. subst t1.
    rewrite IH, <- app_assoc, <- fmap_app. f_equal. f_equal.
    unfold websites. change (p :: ps) with ([p] ++ ps). rewrite omap_app. reflexivity.
Qed.

Lemma for_of_scan_result A ps features t :
  exists t' new ps',
    for_of ps (scan A) features t = (t', Normal (features ++ new)) /\
    ps' `sublist_of` ps /\ Forall2 written_from ps' new.
Proof.
  revert features t. induction ps as [|p ps IH]; intros features t.
  - exists t, [], []. simpl. rewrite app_nil_r. repeat split; constructor.
  - cbn [for_of]. unfold bind.
    destruct (scan_result A features p t) as (t1 & new1 & -> & Hnew1).
    destruct (IH (features ++ new1) t1) as (t2 & new2 & ps2 & -> & Hsub & Hall).
    destruct Hnew1 as [-> | (f & -> & Hf)].
    + exists t2, new2, ps2. rewrite app_nil_r. repeat split; [|exact Hall].
      apply sublist_cons, Hsub.
    + exists t2, (f :: new2), (p :: ps2). rewrite <- app_assoc.
      repeat split; [apply sublist_skip, Hsub | constructor; assumption].
Qed.

End LoopFacts.

(** ** More on the merge *)

Section MoreMergeFacts.

Import FetchSales.
Implicit Types (k : string) (p : place) (ps : list place) (byId : Map string place).

Lemma add_place_values byId p :
  Map_values (add_place byId p) = Map_values byId \/
  Map_values (add_place byId p) = Map_values byId ++ [p].
Proof.
  unfold add_place. destruct (id p) as [i|]; [|left; reflexivity].
  destruct (truthy_string i); simpl; [|left; reflexivity].
  destruct (Map_has i byId) eqn:Hhas; simpl; [left; reflexivity|].
  apply Map_has_false in Hhas. rewrite Map_set_fresh by exact Hhas.
  right. unfold Map_values. rewrite map_app. reflexivity.
Qed.

Lemma add_places_values byId ps :
  exists new, Map_values (add_places byId ps) = Map_values byId ++ new /\
              new `sublist_of` ps.
Proof.
  unfold add_places. revert byId.
  induction ps as [|p ps IH]; intros byId; simpl.
  - exists []. rewrite app_nil_r. split; [reflexivity | constructor].
  - destruct (IH (add_place byId p)) as (new & -> & Hsub).
    destruct (add_place_values byId p) as [-> | ->].
    + exists new. split; [reflexivity | apply sublist_cons, Hsub].
    + exists (p :: new). rewrite <- app_assoc. split; [reflexivity|].
      apply sublist_skip, Hsub.
Qed.

(** X12. The places of the merged map, in the order of the map, are a
    subsequence of the places in query order, and the map has at most as
    many entries as places were returned. *)
Theorem merged_places_in_query_order (results : list (list place)) :
  Map_values (merge results) `sublist_of` concat results /\
  (Map_size (merge results) <= length (concat results))%nat.
Proof.
  rewrite merge_concat.
  destruct (add_places_values Map_new (concat results)) as (new & Hv & Hsub).
  simpl in Hv. split.
  - rewrite Hv. exact Hsub.
  - apply sublist_length in Hsub.
    unfold Map_size. rewrite <- (length_map snd). fold (Map_values (add_places Map_new (concat results))).
    rewrite Hv. exact Hsub.
Qed.

Lemma first_occurrence_is_Some k p ps :
  p ∈ ps -> id p = Some k -> is_Some (first_occurrence k ps).
Proof.
  intros Hin Hid. induction Hin as [p ps | p q ps Hin IH]; simpl.
  - rewrite decide_True by exact Hid. eauto.
  - destruct (decide (id q = Some k)); eauto.
Qed.

Lemma add_place_seen byId p :
  (has_id p = false \/ exists k, id p = Some k /\ is_Some (Map_get k byId)) ->
  add_place byId p = byId.
Proof.
  intros [Hp | (k & Hid & [q Hk])]; [apply add_place_falsy, Hp|].
  unfold add_place. rewrite Hid. unfold Map_has. rewrite Hk.
  rewrite andb_false_r. reflexivity.
Qed.

Lemma add_places_seen byId ps :
  Forall (λ p, has_id p = false \/
               exists k, id p = Some k /\ is_Some (Map_get k byId)) ps ->
  add_places byId ps = byId.
Proof.
  unfold add_places. induction 1 as [|p ps Hp _ IH]; simpl; [reflexivity|].
  rewrite add_place_seen by exact Hp. exact IH.
Qed.

(** X13. Result sets that only repeat places of earlier result sets
    leave the merged map as it is. *)
Theorem merge_ignores_repeats (results more : list (list place)) :
  (forall p, p ∈ concat more -> p ∈ concat results) ->
  merge (results ++ more) = merge results.
Proof.
  intros Hrep. rewrite (merge_concat (results ++ more)), concat_app.
  unfold add_places at 1. rewrite foldl_app. fold (add_places Map_new (concat results)).
  rewrite <- merge_concat. apply add_places_seen.
  apply Forall_forall. intros p Hp. apply Hrep in Hp.
  destruct (has_id p) eqn:Hid; [right | left; reflexivity].
  unfold has_id in Hid. destruct (id p) as [k|] eqn:Hk; [|discriminate].
  exists k. split; [reflexivity|]. rewrite merge_get. simpl in Hid. rewrite Hid.
  eapply first_occurrence_is_Some; eassumption.
Qed.

Lemma merge_ignores_repeats_witness :
  merge ([[uff; kirjakauppa]; [uff_again]] ++ [[kirjakauppa; uff]])
    = merge [[uff; kirjakauppa]; [uff_again]].
Proof.
  apply (merge_ignores_repeats [[uff; kirjakauppa]; [uff_again]] [[kirjakauppa; uff]]).
  intros p Hp. apply list_elem_of_In in Hp. apply list_elem_of_In.
  simpl in *. tauto.
Defined.

End MoreMergeFacts.

(** ** Whole runs *)

Section MoreCrawlerFacts.

Variable trim : string -> string.
Variable JSON_parse : string -> completion json.

Lemma analyzeSite_one_request net :
  one_request (FetchSales.analyzeSite trim JSON_parse net).
Proof.
  intros url t.
  unfold FetchSales.analyzeSite, bind, await_responses_create, try_catch, lift, ret.
  destruct (responses_create net t url) as [resp|e]; [|reflexivity].
  destruct (output_text resp); [|reflexivity].
  destruct (JSON_parse _); reflexivity.
Qed.

Lemma analyzeSite_Kamppi_one_request net :
  one_request (FetchSalesKamppi.analyzeSite trim JSON_parse net).
Proof.
  intros url t.
  unfold FetchSalesKamppi.analyzeSite, bind, await_responses_create, try_catch, lift, ret.
  destruct (responses_create net t url) as [resp|e]; [|reflexivity].
  destruct (output_text resp); [|reflexivity].
  destruct (JSON_parse _); reflexivity.
Qed.

Lemma queryPlaces_answer net loc t :
  FetchSales.queryPlaces net loc t = (t ++ [Fetch (body_of loc)], answer net t loc).
Proof.
  unfold FetchSales.queryPlaces, answer, bind, await_fetch, lift, ret.
  fold (body_of loc).
  destruct (fetch net t (body_of loc)) as [res|e]; [|reflexivity].
  destruct (ok res); simpl; [|reflexivity].
  destruct (res_json res); reflexivity.
Qed.

Lemma searched_app locs1 locs2 : searched (locs1 ++ locs2) = searched locs1 ++ searched locs2.
Proof. unfold searched. rewrite !fmap_app. reflexivity. Qed.

(** Step 1 searches location after location, merges what each search
    answers, and stops at the first search that fails. *)
Lemma collect_loop_answers net locs byId t t' c :
  for_of locs
    (fun byId loc => ps <- FetchSales.queryPlaces net loc ;;
                     ret (FetchSales.add_places byId ps)) byId t = (t', c) ->
  match c with
  | Normal byId' =>
      exists results,
        answered net t locs results /\
        t' = t ++ searched locs /\
        byId' = foldl FetchSales.add_places byId results
  | Throw e =>
      exists done loc rest results,
        locs = done ++ loc :: rest /\
        answered net t done results /\
        answer net (t ++ searched done) loc = Throw e /\
        t' = t ++ searched (done ++ [loc])
  end.
Proof.
  revert byId t. induction locs as [|loc locs IH]; intros byId t; cbn [for_of].
  - unfold ret. intros [= <- <-]. exists []. simpl. rewrite app_nil_r. auto.
  - unfold bind at 1 2. rewrite queryPlaces_answer.
    destruct (answer net t loc) as [ps|e] eqn:Hans.
    + unfold ret at 1. intros Hrest. apply IH in Hrest.
      destruct c as [byId'|e].
      * destruct Hrest as (results & Hres & -> & ->).
        exists (ps :: results). simpl. rewrite <- app_assoc. auto.
      * destruct Hrest as (done & loc' & rest & results & -> & Hres & Hfail & ->).
        exists (loc :: done), loc', rest, (ps :: results). simpl.
        rewrite <- !app_assoc in *. simpl in *. auto.
    + intros [= <- <-]. exists [], loc, locs, []. simpl.
      rewrite app_nil_r. auto.
Qed.

(** X14. With both keys set, the multi-point crawler searches the
    locations in order, each with its own request body.  If the search for
    a location fails, the run throws that error after that search, with
    nothing else called or written.  Otherwise the merged map is the merge
    of the ten result sets the network answered, the run makes one request
    to the model per place of the map with a website, in the order of the
    map, and ends with the one write of [stores.geojson]. *)
Theorem run_shape env net :
  keys_missing env = false ->
  (exists done loc rest results e,
     FetchSales.LOCATIONS = done ++ loc :: rest /\
     answered net [] done results /\
     answer net (searched done) loc = Throw e /\
     FetchSales.run trim JSON_parse env net = (searched (done ++ [loc]), Throw e)) \/
  (exists results features,
     answered net [] FetchSales.LOCATIONS results /\
     FetchSales.collect net []
       = (searched FetchSales.LOCATIONS, Normal (FetchSales.merge results)) /\
     let ta := ResponsesCreate <$> websites (Map_values (FetchSales.merge results)) in
     FetchSales.run trim JSON_parse env net
       = (searched FetchSales.LOCATIONS ++ ta
            ++ [WriteFile "stores.geojson" {| features := features |}],
          fs_writeFile net (searched FetchSales.LOCATIONS ++ ta) "stores.geojson"
            {| features := features |})).
Proof.
  intros Hkeys. unfold FetchSales.run. rewrite Hkeys. unfold FetchSales.main.
  destruct (FetchSales.collect net []) as [tq c] eqn:Hc.
  pose proof Hc as Hc'. unfold FetchSales.collect in Hc'.
  apply collect_loop_answers in Hc'.
  destruct c as [byId|e].
  - right. destruct Hc' as (results & Hres & Htq & HbyId).
    rewrite app_nil_l in Htq. subst tq.
    fold (FetchSales.merge results) in HbyId. subst byId.
    unfold bind at 1. rewrite Hc. unfold bind.
    pose proof (for_of_scan_trace _ (Map_values (FetchSales.merge results)) []
                  (searched FetchSales.LOCATIONS) (analyzeSite_one_request net)) as Ht.
    destruct (for_of_scan_normal (FetchSales.analyzeSite trim JSON_parse net)
                (Map_values (FetchSales.merge results)) []
                (searched FetchSales.LOCATIONS)) as (t2 & features & Hloop).
    rewrite Hloop in Ht |- *. cbn [fst] in Ht. subst t2.
    exists results, features. cbv zeta. unfold await_writeFile.
    rewrite <- app_assoc. auto.
  - left. destruct Hc' as (done & loc & rest & results & Hlocs & Hres & Hfail & Htq).
    rewrite app_nil_l in Htq, Hfail. subst tq.
    exists done, loc, rest, results, e. unfold bind. rewrite Hc. auto.
Qed.

(** X15. The features the multi-point crawler writes are, in order, the
    features of a subsequence of the merged places: each has the website,
    the name (or [(unnamed)]) and the coordinates of its place, a truthy
    headline, and a discount that is truthy or [null]. *)
Theorem written_features_come_from_places env net tq byId :
  keys_missing env = false ->
  FetchSales.collect net [] = (tq, Normal byId) ->
  exists t features ps,
    FetchSales.run trim JSON_parse env net
      = (t ++ [WriteFile "stores.geojson" {| features := features |}],
         fs_writeFile net t "stores.geojson" {| features := features |}) /\
    ps `sublist_of` Map_values byId /\
    Forall2 written_from ps features.
Proof.
  intros Hkeys Hc. unfold FetchSales.run. rewrite Hkeys. unfold FetchSales.main.
  unfold bind at 1. rewrite Hc. unfold bind.
  destruct (for_of_scan_result (FetchSales.analyzeSite trim JSON_parse net)
              (Map_values byId) [] tq) as (t & features & ps & -> & Hsub & Hall).
  exists t, features, ps. simpl. auto.
Qed.

(** X16. With both keys set, the single-centre crawler makes one Nearby
    Search; if it fails the run throws its error after that one call;
    otherwise it makes one request to the model per returned place with a
    website, repeats included, and ends with the one write, of features
    that come in order from a subsequence of the returned places. *)
Theorem single_centre_run_shape env net :
  keys_missing env = false ->
  exists body,
    (FetchSalesKamppi.queryPlaces net []).1 = [Fetch body] /\
    match (FetchSalesKamppi.queryPlaces net []).2 with
    | Throw e => FetchSalesKamppi.run trim JSON_parse env net = ([Fetch body], Throw e)
    | Normal places =>
        exists features ps,
          let ta := ResponsesCreate <$> websites places in
          FetchSalesKamppi.run trim JSON_parse env net
            = ([Fetch body] ++ ta ++ [WriteFile "stores.geojson" {| features := features |}],
               fs_writeFile net ([Fetch body] ++ ta) "stores.geojson"
                 {| features := features |}) /\
          ps `sublist_of` places /\ Forall2 written_from ps features
    end.
Proof.
  intros Hkeys. unfold FetchSalesKamppi.run. rewrite Hkeys.
  assert (exists body, (FetchSalesKamppi.queryPlaces net []).1 = [Fetch body]) as (body & Hq).
  { unfold FetchSalesKamppi.queryPlaces, bind, await_fetch, lift, ret. eexists.
    destruct (fetch net [] _) as [res|e]; [|reflexivity].
    destruct (ok res); simpl; [|reflexivity].
    destruct (res_json res); reflexivity. }
  exists body. split; [exact Hq|].
  destruct (FetchSalesKamppi.queryPlaces net []) as [tq c] eqn:Hqp.
  simpl in Hq |- *. subst tq.
  destruct c as [places|e]; unfold FetchSalesKamppi.main; unfold bind at 1;
    rewrite Hqp; [|reflexivity].
  unfold bind.
  pose proof (for_of_scan_trace _ places [] [Fetch body]
                (analyzeSite_Kamppi_one_request net)) as Ht.
  destruct (for_of_scan_result (FetchSalesKamppi.analyzeSite trim JSON_parse net)
              places [] [Fetch body]) as (t & features & ps & Hloop & Hsub & Hall).
  rewrite Hloop in Ht |- *. simpl in Ht. subst t.
  exists features, ps. cbv zeta. unfold await_writeFile. simpl. auto.
Qed.

End MoreCrawlerFacts.

Lemma run_shape_witness :
  (exists done loc rest results e,
     FetchSales.LOCATIONS = done ++ loc :: rest /\
     answered bargain [] done results /\
     answer bargain (searched done) loc = Throw e /\
     FetchSales.run (fun s => s) parse_literal both_keys bargain
       = (searched (done ++ [loc]), Throw e)) \/
  (exists results features,
     answered bargain [] FetchSales.LOCATIONS results /\
     FetchSales.collect bargain []
       = (searched FetchSales.LOCATIONS, Normal (FetchSales.merge results)) /\
     let ta := ResponsesCreate <$> websites (Map_values (FetchSales.merge results)) in
     FetchSales.run (fun s => s) parse_literal both_keys bargain
       = (searched FetchSales.LOCATIONS ++ ta
            ++ [WriteFile "stores.geojson" {| features := features |}],
          fs_writeFile bargain (searched FetchSales.LOCATIONS ++ ta) "stores.geojson"
            {| features := features |})).
Proof.
  apply (run_shape (fun s => s) parse_literal both_keys bargain). reflexivity.
Defined.

Lemma written_features_come_from_places_witness :
  exists t features ps,
    FetchSales.run (fun s => s) parse_literal both_keys bargain
      = (t ++ [WriteFile "stores.geojson" {| features := features |}],
         fs_writeFile bargain t "stores.geojson" {| features := features |}) /\
    ps `sublist_of` [uff; kirjakauppa] /\
    Forall2 written_from ps features.
Proof.
  apply (written_features_come_from_places (fun s => s) parse_literal both_keys bargain
           (FetchSales.collect bargain []).1
           [("ChIJuff"%string, uff); ("ChIJkirja"%string, kirjakauppa)]);
    reflexivity.
Defined.

Lemma single_centre_run_shape_witness :
  exists body,
    (FetchSalesKamppi.queryPlaces anonymous []).1 = [Fetch body] /\
    match (FetchSalesKamppi.queryPlaces anonymous []).2 with
    | Throw e =>
        FetchSalesKamppi.run (fun s => s) parse_literal both_keys anonymous
          = ([Fetch body], Throw e)
    | Normal places =>
        exists features ps,
          let ta := ResponsesCreate <$> websites places in
          FetchSalesKamppi.run (fun s => s) parse_literal both_keys anonymous
            = ([Fetch body] ++ ta ++ [WriteFile "stores.geojson" {| features := features |}],
               fs_writeFile anonymous ([Fetch body] ++ ta) "stores.geojson"
                 {| features := features |}) /\
          ps `sublist_of` places /\ Forall2 written_from ps features
    end.
Proof.
  apply (single_centre_run_shape (fun s => s) parse_literal both_keys anonymous).
  reflexivity.
Defined.

(** ** Stores that are skipped *)

Section StoreFacts.

Variable trim : string -> string.
Variable JSON_parse : string -> completion json.

(** X18. A store whose answer parses to anything but an object with a
    truthy [sale] (so [null], a number, a string, an array, [sale] missing
    or falsy), or a store without a location, adds no feature, and the loop
    goes on. *)
Theorem answer_without_sale_skipped (A : string -> M json) features p url t t' info :
  websiteUri p = Some url -> truthy_string url = true ->
  A url t = (t', Normal info) ->
  (forall props, info = JObj props -> truthy_opt (assoc "sale" props) = false) \/
  location p = None ->
  scan A features p t = (t', Normal features).
Proof.
  intros Hp Hurl HA Hwhy. unfold scan. rewrite Hp, Hurl. simpl.
  unfold try_catch, bind. rewrite HA. unfold lift, ret.
  destruct info as [| b | n | s | items | props]; simpl; try reflexivity.
  destruct (truthy_opt (assoc "sale" props)) eqn:Hsale; [|reflexivity].
  destruct Hwhy as [Hno | Hloc].
  - rewrite (Hno props eq_refl) in Hsale. discriminate.
  - rewrite Hloc. reflexivity.
Qed.

(** X17. In both crawlers, a store whose request to the model is
    rejected, whose response has no [output_text], or whose text does not
    parse adds no feature and does not stop the loop. *)
Theorem store_failure_skipped net features p url t :
  websiteUri p = Some url -> truthy_string url = true ->
  (exists e, responses_create net t url = Throw e) \/
  responses_create net t url = Normal {| output_text := None |} \/
  (exists txt e, responses_create net t url = Normal {| output_text := Some txt |} /\
                 JSON_parse (trim txt) = Throw e) ->
  scan (FetchSales.analyzeSite trim JSON_parse net) features p t
    = (t ++ [ResponsesCreate url], Normal features) /\
  scan (FetchSalesKamppi.analyzeSite trim JSON_parse net) features p t
    = (t ++ [ResponsesCreate url], Normal features).
Proof.
  intros Hp Hurl Hfail.
  unfold scan. rewrite Hp, Hurl. simpl.
  unfold FetchSales.analyzeSite, FetchSalesKamppi.analyzeSite.
  unfold try_catch, bind, await_responses_create, lift, ret.
  destruct Hfail as [(e & ->) | [-> | (txt & e & -> & Hparse)]]; simpl.
  - split; reflexivity.
  - split; reflexivity.
  - rewrite Hparse. split; reflexivity.
Qed.

(** X19. A key that is set to the empty string counts as missing: both
    crawlers throw before any call. *)
Theorem empty_key_aborts env net :
  GOOGLE_API_KEY env = Some EmptyString \/ OPENAI_API_KEY env = Some EmptyString ->
  FetchSales.run trim JSON_parse env net
    = ([], Throw (Error "Missing API keys in .env")) /\
  FetchSalesKamppi.run trim JSON_parse env net
    = ([], Throw (Error "GOOGLE_API_KEY and OPENAI_API_KEY must be set in .env")).
Proof.
  intros Hempty.
  assert (keys_missing env = true) as Hk.
  { unfold keys_missing. destruct Hempty as [-> | ->]; simpl;
      [reflexivity | apply orb_true_r]. }
  unfold FetchSales.run, FetchSalesKamppi.run. rewrite Hk. split; reflexivity.
Qed.

Lemma queryPlaces_nothing net loc t :
  finds_nothing net ->
  exists body, FetchSales.queryPlaces net loc t = (t ++ [Fetch body], Normal []).
Proof.
  intros Hnet. unfold FetchSales.queryPlaces, bind, await_fetch, lift, ret.
  eexists.
  match goal with |- context [fetch net t ?b] =>
    destruct (Hnet t b) as (res & -> & -> & Hjson) end.
  simpl. destruct Hjson as [-> | ->]; reflexivity.
Qed.

Lemma collect_loop_nothing net locs t :
  finds_nothing net ->
  exists tq,
    for_of locs
      (fun byId loc => ps <- FetchSales.queryPlaces net loc ;;
                       ret (FetchSales.add_places byId ps)) Map_new t
      = (t ++ tq, Normal Map_new) /\
    Forall is_fetch tq /\ length tq = length locs.
Proof.
  intros Hnet. revert t. induction locs as [|loc locs IH]; intros t; cbn [for_of].
  - exists []. rewrite app_nil_r. repeat split; constructor.
  - unfold bind at 1 2.
    destruct (queryPlaces_nothing net loc t Hnet) as (body & ->).
    unfold ret at 1. cbn [FetchSales.add_places foldl].
    destruct (IH (t ++ [Fetch body])) as (tq & -> & Hall & Hlen).
    exists (Fetch body :: tq). rewrite <- app_assoc.
    repeat split; [constructor; [exact I | exact Hall] | simpl; lia].
Qed.

(** X20. When every Nearby Search succeeds with a body that has no
    [places] (or an empty list), the multi-point crawler makes its ten
    searches and no request to the model, and writes an empty feature
    collection. *)
Theorem nothing_found_writes_empty_file env net :
  keys_missing env = false -> finds_nothing net ->
  exists tq,
    Forall is_fetch tq /\ length tq = length FetchSales.LOCATIONS /\
    FetchSales.run trim JSON_parse env net
      = (tq ++ [WriteFile "stores.geojson" {| features := [] |}],
         fs_writeFile net tq "stores.geojson" {| features := [] |}).
Proof.
  intros Hkeys Hnet. unfold FetchSales.run. rewrite Hkeys.
  destruct (collect_loop_nothing net FetchSales.LOCATIONS [] Hnet) as (tq & Hc & Hall & Hlen).
  exists tq. split; [exact Hall|]. split; [exact Hlen|].
  unfold FetchSales.main, bind at 1. unfold FetchSales.collect. rewrite Hc.
  reflexivity.
Qed.

End StoreFacts.

Lemma answer_without_sale_skipped_witness :
  scan (FetchSales.analyzeSite (fun s => s) parse_literal terse) [] uff []
    = ([ResponsesCreate "https://uff.fi"], Normal []).
Proof.
  apply (answer_without_sale_skipped
           (FetchSales.analyzeSite (fun s => s) parse_literal terse)
           [] uff "https://uff.fi" [] [ResponsesCreate "https://uff.fi"] JNull);
    try reflexivity.
  left. intros props Hnull. discriminate Hnull.
Defined.

Lemma store_failure_skipped_witness :
  scan (FetchSales.analyzeSite (fun s => s) parse_literal unreachable_model) [] uff []
    = ([ResponsesCreate "https://uff.fi"], Normal []) /\
  scan (FetchSalesKamppi.analyzeSite (fun s => s) parse_literal unreachable_model) [] uff []
    = ([ResponsesCreate "https://uff.fi"], Normal []).
Proof.
  apply (store_failure_skipped (fun s => s) parse_literal unreachable_model
           [] uff "https://uff.fi" []); try reflexivity.
  left. eexists. reflexivity.
Defined.

Lemma empty_key_aborts_witness :
  FetchSales.run (fun s => s) parse_literal empty_google_key chatty
    = ([], Throw (Error "Missing API keys in .env")) /\
  FetchSalesKamppi.run (fun s => s) parse_literal empty_google_key chatty
    = ([], Throw (Error "GOOGLE_API_KEY and OPENAI_API_KEY must be set in .env")).
Proof.
  apply (empty_key_aborts (fun s => s) parse_literal empty_google_key chatty).
  left; reflexivity.
Defined.

Lemma nothing_found_writes_empty_file_witness :
  exists tq,
    Forall is_fetch tq /\ length tq = length FetchSales.LOCATIONS /\
    FetchSales.run (fun s => s) parse_literal both_keys deserted
      = (tq ++ [WriteFile "stores.geojson" {| features := [] |}],
         fs_writeFile deserted tq "stores.geojson" {| features := [] |}).
Proof.
  apply (nothing_found_writes_empty_file (fun s => s) parse_literal both_keys deserted).
  - reflexivity.
  - intros t body. eexists. split; [reflexivity|]. split; [reflexivity|].
    left; reflexivity.
Defined.

(** ** What the pages show *)

Section PageFacts.

Lemma cards_render hits : cards (render hits) = hits.
Proof. induction hits as [|f hits IH]; simpl; [reflexivity | f_equal; exact IH]. Qed.

Lemma store_markers_render hits : store_markers (render hits) = hits.
Proof. induction hits as [|f hits IH]; simpl; [reflexivity | f_equal; exact IH]. Qed.




(** X22. When the data file and the position are there and the map
    loads, the other page shows one card and one store marker per feature
    of the file, logs the same number before and after its filter, and
    shows every store the filtering page shows, in the same order. *)
Theorem unfiltered_page_shows_all w geojson lat lon :
  stores_geojson w = Normal geojson -> position w = Some (lat, lon) ->
  map_loads w = true ->
  let acts := (UnfilteredPage.run w).1 in
  cards acts = features geojson /\
  store_markers acts = features geojson /\
  ConsoleLog (length (features geojson)) (length (features geojson)) ∈ acts /\
  cards (FilteringPage.run w).1 `sublist_of` cards acts.
Proof.
  intros Hdata Hpos Hload. cbv zeta.
  unfold FilteringPage.run, UnfilteredPage.run. rewrite Hdata, Hpos, Hload.
  cbn [fst cards store_markers omap list_omap]. unfold Unfiltered.hits. cbv zeta.
  fold (cards (render (features geojson))).
  fold (store_markers (render (features geojson))).
  fold (cards (render (Filtering.hits lat lon geojson))).
  rewrite !cards_render, store_markers_render.
  split; [reflexivity|]. split; [reflexivity|]. split.
  - do 2 apply list_elem_of_further. apply list_elem_of_here.
  - unfold Filtering.hits. cbv zeta. apply sublist_filter.
Qed.

Lemma unfiltered_page_shows_all_witness :
  cards (UnfilteredPage.run helsinki).1 = [store_at 25.50 60.30] /\
  store_markers (UnfilteredPage.run helsinki).1 = [store_at 25.50 60.30] /\
  ConsoleLog 1 1 ∈ (UnfilteredPage.run helsinki).1 /\
  cards (FilteringPage.run helsinki).1 `sublist_of` cards (UnfilteredPage.run helsinki).1.
Proof.
  apply (unfiltered_page_shows_all helsinki {| features := [store_at 25.50 60.30] |}
           60.17 24.94); reflexivity.
Defined.

End PageFacts.
